(** * The gfx worker: request processing and ordered multi-size rendering

    A shallow embedding of [src/gfxworker/src/server.cpp] (the classes
    [GfxProcessor] and [RequestProcessor]) together with the task types it
    works on, and the properties the specification states
    about them.

    Conventions of the embedding:
    - [std::vector<T>] is [list T], indexed with stdpp's lookup [l !! i] and
      updated with [<[i:=x]> l].  [operator[]] of the source is unchecked; an
      access past the end is undefined behaviour and is modelled as the
      outcome [Fault].
    - [int] widths and heights are [Z]; [size_t] indices are [nat].
    - collaborators that live outside this translation unit (the image
      provider, [std::sort], the protocol reader and writer, the thread pool)
      are interfaces; their calls are recorded as events of a trace. *)

From Stdlib Require Import ZArith Lia Ascii.
From stdpp Require Import base option list strings sorting pretty.

Local Open Scope string_scope.
Local Open Scope list_scope.
Local Open Scope nat_scope.

(** ** Task types *)

(** [enum class GfxTaskProcessStatus { SUCCESS = 0, ERR = 1, PENDING }]. *)
Inductive GfxTaskProcessStatus : Type :=
| SUCCESS
| ERR
| PENDING.

(** The enumerator values, as [static_cast<uint32_t>] reads them. *)
Definition status_value (s : GfxTaskProcessStatus) : Z :=
  match s with
  | SUCCESS => 0
  | ERR => 1
  | PENDING => 2
  end%Z.

#[global] Instance GfxTaskProcessStatus_eq_dec : EqDecision GfxTaskProcessStatus.
Proof. solve_decision. Defined.

(** [GfxDimension]: a requested size with accessors [w()] and [h()]. *)
Record GfxDimension : Type := mkGfxDimension { w : Z; h : Z }.

#[global] Instance GfxDimension_eq_dec : EqDecision GfxDimension.
Proof. solve_decision. Defined.

(** [struct GfxTask { std::string Path; std::vector<GfxDimension> Dimensions; }]. *)
Record GfxTask : Type := mkGfxTask {
  Path : string;
  Dimensions : list GfxDimension
}.

(** [struct GfxTaskResult], built by its constructor
    [GfxTaskResult(outputImages, processStatus)]. *)
Record GfxTaskResult : Type := mkGfxTaskResult {
  OutputImages : list string;
  ProcessStatus : GfxTaskProcessStatus
}.

(** [class GfxSize]: a width and a height, with its comparison operators,
    accessors, setters and [toString]. *)
Module GfxSize.
Record t : Type := Build { mWidth : Z; mHeight : Z }.

(** [GfxSize() : mWidth(0), mHeight(0)]. *)
Definition zero : t := Build 0 0.

(** [bool operator==(const GfxSize& other) const]. *)
Definition eq (this other : t) : bool :=
  (mWidth this =? mWidth other)%Z && (mHeight this =? mHeight other)%Z.

(** [bool operator!=(const GfxSize& other) const]. *)
Definition ne (this other : t) : bool := negb (eq this other).

Definition w (this : t) : Z := mWidth this.
Definition h (this : t) : Z := mHeight this.
Definition setW (this : t) (width : Z) : t := Build width (mHeight this).
Definition setH (this : t) (height : Z) : t := Build (mWidth this) height.

(** [std::to_string(int)]: the decimal digits, after a minus sign for a
    negative number. *)
Definition to_string (n : Z) : string := pretty n.

(** [std::string toString() const]. *)
Definition toString (this : t) : string :=
  to_string (mWidth this) +:+ "x" +:+ to_string (mHeight this).
End GfxSize.

(** ** Commands and responses *)

(** Modelled from the spec: the header that declares [CommandType] is not
    among the sources.  The four request kinds are the ones the dispatch in
    [RequestProcessor::process] switches on; the response kinds are commands
    too (the writer takes them) and fall under the [default] branch. *)
Inductive CommandType : Type :=
| HELLO
| SHUTDOWN
| NEW_GFX
| SUPPORT_FORMATS
| HELLO_RESPONSE
| SHUTDOWN_RESPONSE
| NEW_GFX_RESPONSE
| SUPPORT_FORMATS_RESPONSE.

#[global] Instance CommandType_eq_dec : EqDecision CommandType.
Proof. solve_decision. Defined.

Record CommandNewGfxResponse : Type := mkCommandNewGfxResponse {
  ErrorCode : Z;
  ErrorText : string;
  Images : list string
}.

Record CommandSupportFormatsResponse : Type := mkCommandSupportFormatsResponse {
  formats : string;
  videoformats : string
}.

(** [ICommand] and its subclasses, as a closed sum. *)
Inductive ICommand : Type :=
| CommandHello
| CommandShutDown
| CommandNewGfx (Task : GfxTask)
| CommandSupportFormats
| CommandHelloResponse
| CommandShutDownResponse
| NewGfxResponse (r : CommandNewGfxResponse)
| SupportFormatsResponse (r : CommandSupportFormatsResponse).

(** [ICommand::type()]. *)
Definition type (c : ICommand) : CommandType :=
  match c with
  | CommandHello => HELLO
  | CommandShutDown => SHUTDOWN
  | CommandNewGfx _ => NEW_GFX
  | CommandSupportFormats => SUPPORT_FORMATS
  | CommandHelloResponse => HELLO_RESPONSE
  | CommandShutDownResponse => SHUTDOWN_RESPONSE
  | NewGfxResponse _ => NEW_GFX_RESPONSE
  | SupportFormatsResponse _ => SUPPORT_FORMATS_RESPONSE
  end.

(** ** Endpoints and the protocol reader *)

Definition TimeoutMs : Type := Z.

(** Modelled from the spec: [ProtocolReader::readCommand] is not among the
    sources.  A read yields a fully decoded command or one of the decode
    failures the specification lists. *)
Inductive ReadOutcome : Type :=
| Decoded (c : ICommand)
| ShortRead
| MalformedFrame
| UnsupportedVersion
| DeadlineExpired.

(** One connection: its identity and what a read bounded by a given deadline
    finds on it. *)
Record IEndpoint : Type := mkEndpoint {
  endpoint_id : nat;
  incoming : TimeoutMs → ReadOutcome
}.

(** Modelled from the spec: [readCommand] returns the command, or a null
    pointer ([None]) on every decode failure. *)
Definition readCommand (endpoint : IEndpoint) (timeout : TimeoutMs) : option ICommand :=
  match incoming endpoint timeout with
  | Decoded c => Some c
  | ShortRead | MalformedFrame | UnsupportedVersion | DeadlineExpired => None
  end.

(** ** Effects *)

(** The closure handed to the thread pool captures the endpoint and the
    command ([this] is the processor itself). *)
Record Job : Type := mkJob {
  job_endpoint : IEndpoint;
  job_command : ICommand
}.

(** Calls that leave the translation unit. *)
Inductive Event : Type :=
| EvGenerateImages (path : string) (dimensions : list GfxDimension)
| EvWriteCommand (endpoint : nat) (response : ICommand) (timeout : TimeoutMs)
| EvPoolPush (job : Job).

(** The state a call runs in: the provider's own state (its decoder, the file
    system it reads through [mFaccess]) and the calls made so far. *)
Record World (PS : Type) : Type := mkWorld {
  provider_state : PS;
  trace : list Event
}.
Arguments mkWorld {PS} _ _.
Arguments provider_state {PS} _.
Arguments trace {PS} _.

(** A call either returns or runs into undefined behaviour. *)
Inductive Outcome (A : Type) : Type :=
| Done (a : A)
| Fault.
Arguments Done {A} _.
Arguments Fault {A}.

Definition M (PS : Type) (A : Type) : Type := World PS → Outcome A * World PS.

#[global] Instance M_ret {PS} : MRet (M PS) :=
  λ A a wd, (Done a, wd).

#[global] Instance M_bind {PS} : MBind (M PS) :=
  λ A B f m wd,
    match m wd with
    | (Done a, wd') => f a wd'
    | (Fault, wd') => (Fault, wd')
    end.

(** An access [v[i]] that the source does not check. *)
Definition at_index {PS A} (v : list A) (i : nat) : M PS A :=
  λ wd, match v !! i with
        | Some x => (Done x, wd)
        | None => (Fault, wd)
        end.

Definition emit {PS} (e : Event) : M PS unit :=
  λ wd, (Done tt, mkWorld (provider_state wd) (trace wd ++ [e])).

(** ** Collaborator interfaces *)

(** [IGfxProvider], the image provider behind [mGfxProvider].  The format
    lists are [const char*]: null ([None]) or a C string. *)
Module IGfxProvider.
Record t (PS : Type) : Type := Build {
  generateImages : PS → string → list GfxDimension → list string * PS;
  supportedformats : PS → option string;
  supportedvideoformats : PS → option string
}.
Arguments Build {PS} _ _ _.
Arguments generateImages {PS} _ _ _ _.
Arguments supportedformats {PS} _ _.
Arguments supportedvideoformats {PS} _ _.
End IGfxProvider.

(** [IGfxProcessor], the processor behind [mGfxProcessor]. *)
Module IGfxProcessor.
Record t (PS : Type) : Type := Build {
  process : GfxTask → M PS GfxTaskResult;
  supportedformats : PS → string;
  supportedvideoformats : PS → string
}.
Arguments Build {PS} _ _ _.
Arguments process {PS} _ _.
Arguments supportedformats {PS} _ _.
Arguments supportedvideoformats {PS} _ _.
End IGfxProcessor.

(** A comparator is usable with [std::sort] when it is a strict weak
    ordering. *)
Record StrictWeakOrdering (comp : nat → nat → bool) : Prop := {
  swo_irrefl : ∀ a, comp a a = false;
  swo_trans : ∀ a b c, comp a b = true → comp b c = true → comp a c = true;
  swo_incomp_trans : ∀ a b c,
    comp a b = false → comp b a = false →
    comp b c = false → comp c b = false →
    comp a c = false ∧ comp c a = false
}.

(** [std::sort] on a range of indices: the result is a rearrangement of the
    range in which no element is ordered before one that precedes it.  The
    order of equivalent elements is left to the implementation. *)
Class StdSort : Type := {
  std_sort : (nat → nat → bool) → list nat → list nat;
  std_sort_permutation : ∀ comp l, std_sort comp l ≡ₚ l;
  std_sort_sorted : ∀ comp l,
    StrictWeakOrdering comp →
    StronglySorted (λ a b, comp b a = false) (std_sort comp l)
}.

(** ** GfxProcessor *)

Module GfxProcessor.
Section GfxProcessor.
Context {PS : Type} `{!StdSort}.
Variable mGfxProvider : IGfxProvider.t PS.

(** [mGfxProvider->generateImages(&mFaccess, path, sortedDimensions)]. *)
Definition call_generateImages (path : string) (dimensions : list GfxDimension)
  : M PS (list string) :=
  λ wd,
    let '(images, ps) :=
      IGfxProvider.generateImages mGfxProvider (provider_state wd) path dimensions in
    (Done images,
     mkWorld ps (trace wd ++ [EvGenerateImages path dimensions])).

(** The comparator of the sort, [dimensions[i1].w() > dimensions[i2].w()].
    [std::sort] applies it to elements of the range only, all of them valid
    indices; elsewhere the width reads as 0. *)
Definition width_at (dimensions : list GfxDimension) (i : nat) : Z :=
  from_option w 0%Z (dimensions !! i).

Definition wider (dimensions : list GfxDimension) (i1 i2 : nat) : bool :=
  (width_at dimensions i1 >? width_at dimensions i2)%Z.

(** [std::iota] followed by [std::sort]: the indices of [dimensions],
    widest first. *)
Definition sorted_indices (dimensions : list GfxDimension) : list nat :=
  std_sort (wider dimensions) (seq 0 (length dimensions)).

(** [std::transform] with [GfxDimension{dimensions[i].w(), dimensions[i].h()}]. *)
Fixpoint transform (dimensions : list GfxDimension) (indices : list nat)
  : M PS (list GfxDimension) :=
  match indices with
  | [] => mret []
  | i :: indices' =>
      d ← at_index dimensions i;
      rest ← transform dimensions indices';
      mret (mkGfxDimension (w d) (h d) :: rest)
  end.

(** The loop [for (int i = 0; i < images.size(); ++i)
    outputImages[indices[i]] = std::move(images[i])], entered at counter
    [i] with the images from [images[i]] on still to be assigned. *)
Fixpoint assign_back (indices : list nat) (images : list string) (i : nat)
    (outputImages : list string) : M PS (list string) :=
  match images with
  | [] => mret outputImages
  | image :: images' =>
      j ← at_index indices i;
      _ ← at_index outputImages j;
      assign_back indices images' (S i) (<[j:=image]> outputImages)
  end.

(** [GfxTaskResult GfxProcessor::process(const GfxTask& task)].  The path
    reaches the provider as [LocalPath::fromPlatformEncodedAbsolute] makes
    it; the embedding keeps it as the string it was made from. *)
Definition process (task : GfxTask) : M PS GfxTaskResult :=
  let outputImages := replicate (length (Dimensions task)) "" in
  if decide (Dimensions task = []) then
    mret (mkGfxTaskResult outputImages ERR)
  else
    let dimensions := Dimensions task in
    let indices := sorted_indices dimensions in
    sortedDimensions ← transform dimensions indices;
    images ← call_generateImages (Path task) sortedDimensions;
    outputImages ← assign_back indices images 0 outputImages;
    mret (mkGfxTaskResult outputImages SUCCESS).

Definition extraFormatsByWorker : string := ".tif.exr.pic.pct.tiff.pict".

(** [std::string GfxProcessor::supportedformats() const]. *)
Definition supportedformats (ps : PS) : string :=
  match IGfxProvider.supportedformats mGfxProvider ps with
  | Some formats => formats +:+ extraFormatsByWorker
  | None => ""
  end.

(** [std::string GfxProcessor::supportedvideoformats() const]. *)
Definition supportedvideoformats (ps : PS) : string :=
  match IGfxProvider.supportedvideoformats mGfxProvider ps with
  | Some videoformats => videoformats
  | None => ""
  end.

(** [GfxProcessor] implements [IGfxProcessor]. *)
Definition as_IGfxProcessor : IGfxProcessor.t PS :=
  IGfxProcessor.Build process supportedformats supportedvideoformats.
End GfxProcessor.
End GfxProcessor.

(** ** RequestProcessor *)

Module RequestProcessor.
Section RequestProcessor.
Context {PS : Type}.
Variable mGfxProcessor : IGfxProcessor.t PS.

Definition READ_TIMEOUT : TimeoutMs := 5000%Z.
Definition WRITE_TIMEOUT : TimeoutMs := 5000%Z.

(** [ProtocolWriter writer{endpoint}; writer.writeCommand(&response, timeout)].
    The writer is a collaborator; the call is recorded. *)
Definition writeCommand (endpoint : IEndpoint) (response : ICommand)
    (timeout : TimeoutMs) : M PS unit :=
  emit (EvWriteCommand (endpoint_id endpoint) response timeout).

(** [mThreadPool.push(...)]: the closure is recorded, not run. *)
Definition push (job : Job) : M PS unit :=
  emit (EvPoolPush job).

(** [assert(p)] on a pointer. *)
Definition assert_ptr {A} (p : option A) : M PS A :=
  λ wd, match p with
        | Some x => (Done x, wd)
        | None => (Fault, wd)
        end.

(** [dynamic_cast<CommandNewGfx*>(command.get())]; the command object is
    its [Task]. *)
Definition dynamic_cast_CommandNewGfx (command : ICommand) : option GfxTask :=
  match command with
  | CommandNewGfx Task => Some Task
  | _ => None
  end.

Definition processHello (endpoint : IEndpoint) : M PS unit :=
  writeCommand endpoint CommandHelloResponse WRITE_TIMEOUT.

Definition processShutDown (endpoint : IEndpoint) : M PS unit :=
  writeCommand endpoint CommandShutDownResponse WRITE_TIMEOUT.

(** The response [processGfx] fills in from a result. *)
Definition gfx_response (result : GfxTaskResult) : CommandNewGfxResponse :=
  {| ErrorCode := status_value (ProcessStatus result);
     ErrorText := if decide (ProcessStatus result = SUCCESS) then "OK" else "ERROR";
     Images := OutputImages result |}.

Definition processGfx (endpoint : IEndpoint) (request : option GfxTask) : M PS unit :=
  Task ← assert_ptr request;
  result ← IGfxProcessor.process mGfxProcessor Task;
  writeCommand endpoint (NewGfxResponse (gfx_response result)) WRITE_TIMEOUT.

Definition processSupportFormats (endpoint : IEndpoint) : M PS unit :=
  λ wd,
    let response :=
      {| formats := IGfxProcessor.supportedformats mGfxProcessor (provider_state wd);
         videoformats :=
           IGfxProcessor.supportedvideoformats mGfxProcessor (provider_state wd) |} in
    writeCommand endpoint (SupportFormatsResponse response) WRITE_TIMEOUT wd.

(** The body of the closure pushed to the thread pool. *)
Definition run (job : Job) : M PS unit :=
  let sharedEndpoint := job_endpoint job in
  let command := job_command job in
  match type command with
  | HELLO => processHello sharedEndpoint
  | SHUTDOWN => processShutDown sharedEndpoint
  | NEW_GFX => processGfx sharedEndpoint (dynamic_cast_CommandNewGfx command)
  | SUPPORT_FORMATS => processSupportFormats sharedEndpoint
  | _ => mret tt
  end.

(** [bool RequestProcessor::process(std::unique_ptr<IEndpoint> endpoint)]. *)
Definition process (endpoint : IEndpoint) : M PS bool :=
  let stopRunning := false in
  match readCommand endpoint READ_TIMEOUT with
  | None => mret stopRunning
  | Some command =>
      let stopRunning := bool_decide (type command = SHUTDOWN) in
      _ ← push (mkJob endpoint command);
      mret stopRunning
  end.
End RequestProcessor.
End RequestProcessor.

(** * Vocabulary of the properties *)

(** The element the source reads as [dimensions[i]], for a valid [i]. *)
Definition dimension_at (dimensions : list GfxDimension) (i : nat) : GfxDimension :=
  default (mkGfxDimension 0 0) (dimensions !! i).

(** The argument of the provider call: the requested dimensions, read in the
    order of the sorted indices. *)
Definition sorted_dimensions `{!StdSort} (task : GfxTask) : list GfxDimension :=
  dimension_at (Dimensions task) <$> GfxProcessor.sorted_indices (Dimensions task).

(** The provider returns one image per dimension it is given. *)
Definition one_image_per_dimension {PS} (provider : IGfxProvider.t PS) : Prop :=
  ∀ ps path dimensions,
    length (IGfxProvider.generateImages provider ps path dimensions).1 = length dimensions.

(** The images the provider returns do not depend on its state. *)
Definition deterministic {PS} (provider : IGfxProvider.t PS) : Prop :=
  ∀ ps1 ps2 path dimensions,
    (IGfxProvider.generateImages provider ps1 path dimensions).1 =
    (IGfxProvider.generateImages provider ps2 path dimensions).1.

(** The world after the provider call of [process task] started in [wd]. *)
Definition after_generate {PS} `{!StdSort} (mGfxProvider : IGfxProvider.t PS)
    (task : GfxTask) (wd : World PS) : World PS :=
  mkWorld
    (IGfxProvider.generateImages mGfxProvider
       (provider_state wd) (Path task) (sorted_dimensions task)).2
    (trace wd ++ [EvGenerateImages (Path task) (sorted_dimensions task)]).

(** A computation whose outcome does not depend on the world and that
    leaves the world as it found it. *)
Definition stateless {PS A} (m : M PS A) : Prop :=
  ∃ r, ∀ wd, m wd = (r, wd).

(** The character [c] does not occur in [s]. *)
Fixpoint free_of (c : ascii) (s : string) : Prop :=
  match s with
  | EmptyString => True
  | String a s' => a ≠ c ∧ free_of c s'
  end.

(** ** Lists of extensions *)

(** Reading a list of extensions such as [".jpg.png"]: the text before the
    first dot, and the extensions, each with its dot. *)
Fixpoint split_extensions (s : string) : string * list string :=
  match s with
  | EmptyString => (EmptyString, [])
  | String c s' =>
      let '(head, exts) := split_extensions s' in
      if Ascii.eqb c "."%char then (EmptyString, String c head :: exts)
      else (String c head, exts)
  end.

Definition extensions (s : string) : list string := (split_extensions s).2.

(** [short] is the beginning of the longer [long]. *)
Definition proper_prefix (short long : string) : bool :=
  String.prefix short long && negb (String.eqb short long).

(** Longest match first: an extension stands before every shorter one that
    is its beginning. *)
Definition longest_match_first (exts : list string) : Prop :=
  ∀ i j long short,
    exts !! i = Some long → exts !! j = Some short →
    proper_prefix short long = true → i < j.

(** Shortest first: an extension stands before every longer one that begins
    with it. *)
Definition shortest_match_first (exts : list string) : Prop :=
  ∀ i j long short,
    exts !! i = Some long → exts !! j = Some short →
    proper_prefix short long = true → j < i.

(** * A conforming [std::sort] and sample collaborators *)

(** [a] may stay before [b]: [b] is not ordered before [a]. *)
Definition not_after (comp : nat → nat → bool) : relation nat :=
  λ a b, comp b a = false.

#[global] Instance not_after_dec comp a b : Decision (not_after comp a b).
Proof. unfold not_after. apply _. Defined.

Definition merge_std_sort (comp : nat → nat → bool) (l : list nat) : list nat :=
  merge_sort (not_after comp) l.

Lemma not_after_total comp : StrictWeakOrdering comp → Total (not_after comp).
Proof.
  intros Hswo a b. unfold not_after.
  destruct (comp b a) eqn:Hba; [|by left].
  destruct (comp a b) eqn:Hab; [|by right].
  pose proof (swo_trans _ Hswo _ _ _ Hab Hba) as Haa.
  rewrite (swo_irrefl _ Hswo) in Haa. discriminate.
Qed.

Lemma not_after_transitive comp : StrictWeakOrdering comp → Transitive (not_after comp).
Proof.
  intros Hswo a b c Hab Hbc. unfold not_after in *.
  destruct (comp c a) eqn:Hca; [|done].
  destruct (comp a b) eqn:Hab'.
  { pose proof (swo_trans _ Hswo _ _ _ Hca Hab') as E. congruence. }
  destruct (comp b c) eqn:Hbc'.
  { pose proof (swo_trans _ Hswo _ _ _ Hbc' Hca) as E. congruence. }
  destruct (swo_incomp_trans _ Hswo a b c) as [_ E]; congruence.
Qed.

#[global] Instance merge_StdSort : StdSort.
Proof.
  refine {| std_sort := merge_std_sort |}.
  - intros comp l. apply merge_sort_Permutation.
  - intros comp l Hswo.
    apply (@StronglySorted_merge_sort _ (not_after comp) _
             (not_after_transitive comp Hswo) (not_after_total comp Hswo)).
Defined.

(** A second conforming sort, which reads the range back to front and so
    leaves equivalent elements in the opposite order. *)
Definition reverse_merge_StdSort : StdSort.
Proof.
  refine {| std_sort := λ comp l, merge_std_sort comp (reverse l) |}.
  - intros comp l. unfold merge_std_sort.
    by rewrite merge_sort_Permutation, reverse_Permutation.
  - intros comp l Hswo.
    apply (@StronglySorted_merge_sort _ (not_after comp) _
             (not_after_transitive comp Hswo) (not_after_total comp Hswo)).
Defined.

(** A provider that renders each size on its own; its state counts the calls
    it has served. *)
Definition render (path : string) (d : GfxDimension) : string :=
  path +:+ "@" +:+ pretty (w d) +:+ "x" +:+ pretty (h d).

Definition rendering_provider (fmts : option string) : IGfxProvider.t nat :=
  IGfxProvider.Build
    (λ calls path dimensions, (render path <$> dimensions, S calls))
    (λ _, fmts)
    (λ _, Some ".mp4").

(** A provider that returns a fixed list of images whatever it is asked. *)
Definition fixed_provider (images : list string) : IGfxProvider.t unit :=
  IGfxProvider.Build (λ _ _ _, (images, tt)) (λ _, None) (λ _, None).

Definition sample_task : GfxTask :=
  mkGfxTask "/photo.jpg"
    [mkGfxDimension 50 50; mkGfxDimension 100 100; mkGfxDimension 75 75].

Definition sample_world : World nat := mkWorld 0 [].

(** A connection on which a NewGfx command arrives in time. *)
Definition gfx_endpoint : IEndpoint :=
  mkEndpoint 7 (λ _, Decoded (CommandNewGfx sample_task)).

(** A connection on which a shutdown command arrives in time. *)
Definition shutdown_endpoint : IEndpoint :=
  mkEndpoint 8 (λ _, Decoded CommandShutDown).

(** A connection whose command needs more than six seconds to arrive. *)
Definition slow_endpoint : IEndpoint :=
  mkEndpoint 9 (λ timeout, if (timeout <? 6000)%Z then DeadlineExpired
                           else Decoded CommandHello).

Definition sample_processor : IGfxProcessor.t nat :=
  GfxProcessor.as_IGfxProcessor (rendering_provider (Some ".jpg.png")).

Definition sample_result : GfxTaskResult :=
  mkGfxTaskResult ["/photo.jpg@50x50"; "/photo.jpg@100x100"; "/photo.jpg@75x75"] SUCCESS.

Definition sample_world_after : World nat :=
  mkWorld 1
    [EvGenerateImages "/photo.jpg"
       [mkGfxDimension 100 100; mkGfxDimension 75 75; mkGfxDimension 50 50]].

(** * Properties *)

(** ** The monad *)

Section Monad.
Context {PS : Type}.

Lemma bind_Done {A B} (m : M PS A) (f : A → M PS B) wd a wd' :
  m wd = (Done a, wd') → (m ≫= f) wd = f a wd'.
Proof. intros Hm. unfold mbind, M_bind. by rewrite Hm. Qed.

Lemma bind_Fault {A B} (m : M PS A) (f : A → M PS B) wd wd' :
  m wd = (Fault, wd') → (m ≫= f) wd = (Fault, wd').
Proof. intros Hm. unfold mbind, M_bind. by rewrite Hm. Qed.

Lemma at_index_Some {A} (v : list A) i x (wd : World PS) :
  v !! i = Some x → at_index v i wd = (Done x, wd).
Proof. intros Hv. unfold at_index. by rewrite Hv. Qed.

End Monad.

(** ** Sorting the indices *)

Section Indices.
Context `{!StdSort}.
Implicit Types dimensions : list GfxDimension.

Lemma width_at_dimension_at dimensions i :
  GfxProcessor.width_at dimensions i = w (dimension_at dimensions i).
Proof.
  unfold GfxProcessor.width_at, dimension_at.
  by destruct (dimensions !! i).
Qed.

Lemma wider_spec dimensions i1 i2 :
  GfxProcessor.wider dimensions i1 i2 = false ↔
  (GfxProcessor.width_at dimensions i1 ≤ GfxProcessor.width_at dimensions i2)%Z.
Proof. unfold GfxProcessor.wider. rewrite Z.gtb_ltb, Z.ltb_ge. done. Qed.

Lemma wider_true dimensions i1 i2 :
  GfxProcessor.wider dimensions i1 i2 = true ↔
  (GfxProcessor.width_at dimensions i2 < GfxProcessor.width_at dimensions i1)%Z.
Proof. unfold GfxProcessor.wider. rewrite Z.gtb_ltb, Z.ltb_lt. done. Qed.

(** The comparator meets the precondition of [std::sort]. *)
Lemma wider_StrictWeakOrdering dimensions :
  StrictWeakOrdering (GfxProcessor.wider dimensions).
Proof.
  split.
  - intros a. apply wider_spec. lia.
  - intros a b c. rewrite !wider_true. lia.
  - intros a b c. rewrite !wider_spec. lia.
Qed.

Lemma sorted_indices_Permutation dimensions :
  GfxProcessor.sorted_indices dimensions ≡ₚ seq 0 (length dimensions).
Proof. apply std_sort_permutation. Qed.

Lemma sorted_indices_length dimensions :
  length (GfxProcessor.sorted_indices dimensions) = length dimensions.
Proof. by rewrite sorted_indices_Permutation, length_seq. Qed.

Lemma sorted_indices_NoDup dimensions :
  NoDup (GfxProcessor.sorted_indices dimensions).
Proof. rewrite sorted_indices_Permutation. apply NoDup_seq. Qed.

Lemma sorted_indices_elem_of dimensions i :
  i ∈ GfxProcessor.sorted_indices dimensions ↔ i < length dimensions.
Proof. rewrite sorted_indices_Permutation, elem_of_seq. lia. Qed.

Lemma sorted_indices_bound dimensions :
  Forall (λ i, i < length dimensions) (GfxProcessor.sorted_indices dimensions).
Proof. apply Forall_forall. intros i. by rewrite sorted_indices_elem_of. Qed.

Lemma sorted_indices_descending dimensions :
  StronglySorted
    (λ i1 i2, (GfxProcessor.width_at dimensions i2 ≤ GfxProcessor.width_at dimensions i1)%Z)
    (GfxProcessor.sorted_indices dimensions).
Proof.
  pose proof (std_sort_sorted (GfxProcessor.wider dimensions)
                (seq 0 (length dimensions))
                (wider_StrictWeakOrdering dimensions)) as Hs.
  unfold GfxProcessor.sorted_indices.
  induction Hs as [|a l Hs IH Ha]; constructor; [done|].
  eapply Forall_impl; [exact Ha|]. intros b Hb. by apply wider_spec.
Qed.

(** Reading every index of a vector in order gives the vector back. *)
Lemma dimension_at_seq dimensions :
  dimension_at dimensions <$> seq 0 (length dimensions) = dimensions.
Proof.
  apply list_eq. intros i. rewrite list_lookup_fmap.
  destruct (decide (i < length dimensions)) as [Hi|Hi].
  - rewrite lookup_seq_lt by done. simpl. unfold dimension_at.
    destruct (lookup_lt_is_Some_2 dimensions i Hi) as [d Hd]. by rewrite Hd.
  - rewrite lookup_seq_ge by lia. simpl. symmetry. apply lookup_ge_None. lia.
Qed.

(** The dimensions in sorted order are a rearrangement of the request. *)
Lemma sorted_dimensions_Permutation dimensions :
  dimension_at dimensions <$> GfxProcessor.sorted_indices dimensions ≡ₚ dimensions.
Proof.
  rewrite sorted_indices_Permutation. by rewrite dimension_at_seq.
Qed.

Lemma sorted_dimensions_descending dimensions :
  StronglySorted (λ d1 d2, (w d2 ≤ w d1)%Z)
    (dimension_at dimensions <$> GfxProcessor.sorted_indices dimensions).
Proof.
  eapply StronglySorted_fmap; [|apply sorted_indices_descending].
  intros i1 i2 Hle. simpl in Hle. by rewrite <-!width_at_dimension_at.
Qed.
End Indices.

(** ** Steps of [GfxProcessor::process] that leave the world alone *)

Section Stateless.
Context {PS : Type}.

Lemma stateless_mret {A} (a : A) : stateless (PS:=PS) (mret a).
Proof. by exists (Done a). Qed.

Lemma stateless_at_index {A} (v : list A) i : stateless (PS:=PS) (at_index v i).
Proof.
  unfold at_index. destruct (v !! i) as [x|]; [by exists (Done x)|by exists Fault].
Qed.

Lemma stateless_bind {A B} (m : M PS A) (f : A → M PS B) :
  stateless m → (∀ a, stateless (f a)) → stateless (m ≫= f).
Proof.
  intros [[a|] Hm] Hf.
  - destruct (Hf a) as [r Hr]. exists r. intros wd.
    by rewrite (bind_Done _ _ _ _ _ (Hm wd)).
  - exists Fault. intros wd. by rewrite (bind_Fault _ _ _ _ (Hm wd)).
Qed.

Lemma stateless_transform dimensions indices :
  stateless (GfxProcessor.transform (PS:=PS) dimensions indices).
Proof.
  induction indices as [|i indices IH]; simpl.
  - apply stateless_mret.
  - apply stateless_bind; [apply stateless_at_index|]. intros d.
    apply stateless_bind; [exact IH|]. intros rest. apply stateless_mret.
Qed.

Lemma stateless_assign_back indices images i outputImages :
  stateless (GfxProcessor.assign_back (PS:=PS) indices images i outputImages).
Proof.
  revert i outputImages.
  induction images as [|image images IH]; intros i outputImages; simpl.
  - apply stateless_mret.
  - apply stateless_bind; [apply stateless_at_index|]. intros j.
    apply stateless_bind; [apply stateless_at_index|]. intros _. apply IH.
Qed.

(** With valid indices the transform cannot fault and reads the
    dimensions in the order of the indices. *)
Lemma transform_done dimensions indices (wd : World PS) :
  Forall (λ i, i < length dimensions) indices →
  GfxProcessor.transform dimensions indices wd =
    (Done (dimension_at dimensions <$> indices), wd).
Proof.
  induction 1 as [|i indices Hi _ IH]; [done|]. simpl.
  destruct (lookup_lt_is_Some_2 dimensions i Hi) as [d Hd].
  rewrite (bind_Done _ _ _ _ _ (at_index_Some _ _ _ wd Hd)).
  rewrite (bind_Done _ _ _ _ _ IH).
  assert (dimension_at dimensions i = d) as -> by (unfold dimension_at; by rewrite Hd).
  by destruct d.
Qed.

(** The scatter loop, run on indices that are distinct and valid for the
    output vector, with no more images than indices: it returns, every
    image lands in the slot its index names, and the other slots keep
    their content. *)
Lemma assign_back_done indices images i outputImages (wd : World PS) :
  NoDup indices →
  Forall (λ j, j < length outputImages) indices →
  i + length images ≤ length indices →
  ∃ out,
    GfxProcessor.assign_back indices images i outputImages wd = (Done out, wd) ∧
    length out = length outputImages ∧
    (∀ k j, k < length images → indices !! (i + k) = Some j →
            out !! j = images !! k) ∧
    (∀ j, (∀ k, k < length images → indices !! (i + k) ≠ Some j) →
          out !! j = outputImages !! j).
Proof.
  intros Hnd. revert i outputImages.
  induction images as [|image images IH]; intros i outputImages Hb Hlen; simpl in *.
  { exists outputImages. split; [done|]. split; [done|].
    split; [intros k j Hk; lia | done]. }
  destruct (lookup_lt_is_Some_2 indices i ltac:(lia)) as [j0 Hj0].
  assert (j0 < length outputImages) as Hj0b.
  { eapply (proj1 (Forall_forall _ _) Hb), list_elem_of_lookup_2, Hj0. }
  destruct (lookup_lt_is_Some_2 outputImages j0 Hj0b) as [old Hold].
  rewrite (bind_Done _ _ _ _ _ (at_index_Some _ _ _ wd Hj0)).
  rewrite (bind_Done _ _ _ _ _ (at_index_Some _ _ _ wd Hold)).
  destruct (IH (S i) (<[j0:=image]> outputImages)) as (out & Hrun & Hl & Hset & Hkeep).
  { by rewrite length_insert. }
  { lia. }
  exists out. split; [exact Hrun|]. split; [by rewrite Hl, length_insert|]. split.
  - intros [|k] j Hk Hj.
    + rewrite Nat.add_0_r, Hj0 in Hj. injection Hj as <-.
      rewrite Hkeep; [by apply list_lookup_insert_eq|].
      intros k' _ Hk'. pose proof (NoDup_lookup _ _ _ _ Hnd Hj0 Hk'). lia.
    + simpl. apply Hset; [lia|]. by replace (S i + k) with (i + S k) by lia.
  - intros j Hj. rewrite Hkeep.
    + apply list_lookup_insert_ne. intros ->. apply (Hj 0); [lia|].
      by rewrite Nat.add_0_r.
    + intros k Hk Hjk. apply (Hj (S k)); [lia|].
      by replace (i + S k) with (S i + k) by lia.
Qed.
End Stateless.

(** ** [GfxProcessor::process] *)

Section GfxProcessorProperties.
Context {PS : Type} `{!StdSort}.
Variable mGfxProvider : IGfxProvider.t PS.

Local Abbreviation process := (GfxProcessor.process mGfxProvider).
Local Abbreviation generate := (IGfxProvider.generateImages mGfxProvider).

Lemma process_empty task wd :
  Dimensions task = [] →
  process task wd = (Done (mkGfxTaskResult [] ERR), wd).
Proof.
  intros Hd. unfold GfxProcessor.process.
  destruct (decide (Dimensions task = [])); [|done]. by rewrite Hd.
Qed.

(** Past the emptiness check, [process] is the provider call followed by
    the scatter loop. *)
Lemma process_nonempty task wd :
  Dimensions task ≠ [] →
  process task wd =
    (GfxProcessor.assign_back
       (GfxProcessor.sorted_indices (Dimensions task))
       (generate (provider_state wd) (Path task) (sorted_dimensions task)).1
       0
       (replicate (length (Dimensions task)) "")
     ≫= λ out, mret (mkGfxTaskResult out SUCCESS))
    (after_generate mGfxProvider task wd).
Proof.
  intros Hd. unfold GfxProcessor.process.
  destruct (decide (Dimensions task = [])); [done|].
  rewrite (bind_Done _ _ _ _ _
             (transform_done _ _ wd (sorted_indices_bound (Dimensions task)))).
  unfold after_generate, sorted_dimensions.
  unfold mbind at 1. unfold M_bind at 1. unfold GfxProcessor.call_generateImages.
  by destruct (generate _ _ _) as [images ps].
Qed.

(** Whatever the loop does, the world [process] leaves behind is the one
    the provider call produced. *)
Lemma process_nonempty_world task wd :
  Dimensions task ≠ [] →
  (process task wd).2 = after_generate mGfxProvider task wd.
Proof.
  intros Hd. rewrite (process_nonempty _ _ Hd).
  destruct (stateless_assign_back (PS:=PS)
              (GfxProcessor.sorted_indices (Dimensions task))
              (generate (provider_state wd) (Path task) (sorted_dimensions task)).1
              0 (replicate (length (Dimensions task)) "")) as [[out|] Hr].
  - by rewrite (bind_Done _ _ _ _ _ (Hr _)).
  - by rewrite (bind_Fault _ _ _ _ (Hr _)).
Qed.

(** When the provider returns no more images than it was given
    dimensions, [process] returns [SUCCESS] with one slot per requested
    dimension; the image returned at position [k] sits in the slot named by
    the [k]-th sorted index, and slots no image was returned for are
    empty. *)
Lemma process_nonempty_done task wd :
  Dimensions task ≠ []  →
  let images := (generate (provider_state wd) (Path task) (sorted_dimensions task)).1 in
  let indices := GfxProcessor.sorted_indices (Dimensions task) in
  length images ≤ length (Dimensions task) →
  ∃ out,
    process task wd = (Done (mkGfxTaskResult out SUCCESS), after_generate mGfxProvider task wd) ∧
    length out = length (Dimensions task) ∧
    (∀ k j, k < length images → indices !! k = Some j → out !! j = images !! k) ∧
    (∀ j, j < length (Dimensions task) →
          (∀ k, k < length images → indices !! k ≠ Some j) → out !! j = Some "").
Proof.
  intros Hd images indices Hlen.
  destruct (assign_back_done indices images 0
              (replicate (length (Dimensions task)) "") (after_generate mGfxProvider task wd))
    as (out & Hrun & Hl & Hset & Hkeep).
  { apply sorted_indices_NoDup. }
  { rewrite length_replicate. apply sorted_indices_bound. }
  { subst indices. rewrite sorted_indices_length. simpl. lia. }
  exists out. rewrite (process_nonempty _ _ Hd).
  fold images indices. rewrite (bind_Done _ _ _ _ _ Hrun).
  rewrite length_replicate in Hl.
  split; [done|]. split; [done|]. split.
  - intros k j Hk Hj. by apply Hset.
  - intros j Hj Hfree. rewrite Hkeep by done.
    by apply lookup_replicate_2.
Qed.
End GfxProcessorProperties.

Section GfxProcessorClaims.
Context {PS : Type} `{!StdSort}.
Variable mGfxProvider : IGfxProvider.t PS.

Local Abbreviation process := (GfxProcessor.process mGfxProvider).
Local Abbreviation generate := (IGfxProvider.generateImages mGfxProvider).

(** C1.  For a task with a non-empty list of N dimensions, and a provider
    that returns one image per dimension it is given, [process] returns a
    result with N images in which slot [i] holds the image the provider
    returned at the position where it was given [dimensions[i]]: the order of
    the request, not the widest-first order of the provider call. *)
Theorem process_restores_request_order task wd :
  Dimensions task ≠ [] →
  one_image_per_dimension mGfxProvider →
  let images := (generate (provider_state wd) (Path task) (sorted_dimensions task)).1 in
  ∃ out,
    process task wd =
      (Done (mkGfxTaskResult out SUCCESS), after_generate mGfxProvider task wd) ∧
    length out = length (Dimensions task) ∧
    ∀ i d, Dimensions task !! i = Some d →
      ∃ k image,
        GfxProcessor.sorted_indices (Dimensions task) !! k = Some i ∧
        sorted_dimensions task !! k = Some d ∧
        images !! k = Some image ∧
        out !! i = Some image.
Proof.
  intros Hd Hone images.
  assert (length images = length (Dimensions task)) as Hlen.
  { subst images. rewrite Hone. unfold sorted_dimensions.
    by rewrite length_fmap, sorted_indices_length. }
  destruct (process_nonempty_done mGfxProvider task wd Hd) as (out & Hrun & Hl & Hset & _).
  { fold images. lia. }
  exists out. split; [exact Hrun|]. split; [exact Hl|].
  intros i d Hi.
  assert (i < length (Dimensions task)) as Hlt by (by eapply lookup_lt_Some).
  apply sorted_indices_elem_of, list_elem_of_lookup_1 in Hlt as [k Hk].
  assert (k < length images) as Hkl.
  { rewrite Hlen, <-(sorted_indices_length (Dimensions task)).
    by eapply lookup_lt_Some. }
  destruct (lookup_lt_is_Some_2 images k Hkl) as [image Himage].
  exists k, image. split; [exact Hk|]. split; [|split; [exact Himage|]].
  - unfold sorted_dimensions. rewrite list_lookup_fmap, Hk. simpl.
    unfold dimension_at. by rewrite Hi.
  - rewrite <-Himage. by apply Hset.
Qed.

(** With three distinct widths there is one widest-first order, whichever
    [std::sort] is in use. *)
Lemma sorted_indices_50_100_75 :
  GfxProcessor.sorted_indices
    [mkGfxDimension 50 50; mkGfxDimension 100 100; mkGfxDimension 75 75] = [1; 2; 0].
Proof.
  set (dimensions := [mkGfxDimension 50 50; mkGfxDimension 100 100; mkGfxDimension 75 75]).
  eapply (StronglySorted_unique_strong
            (λ i1 i2, (GfxProcessor.width_at dimensions i2
                       ≤ GfxProcessor.width_at dimensions i1)%Z)).
  - intros x1 x2 Hx1 Hx2.
    apply sorted_indices_elem_of in Hx1. simpl in Hx1.
    assert (x1 = 0 ∨ x1 = 1 ∨ x1 = 2) as Hc1 by lia.
    assert (x2 = 0 ∨ x2 = 1 ∨ x2 = 2) as Hc2.
    { rewrite !elem_of_cons, elem_of_nil in Hx2. lia. }
    destruct Hc1 as [-> | [-> | ->]], Hc2 as [-> | [-> | ->]];
      unfold GfxProcessor.width_at; simpl; lia.
  - apply sorted_indices_descending.
  - repeat constructor; unfold GfxProcessor.width_at; simpl; lia.
  - rewrite sorted_indices_Permutation. simpl.
    change [0; 1; 2] with ([0] ++ [1; 2]). by rewrite Permutation_app_comm.
Qed.

(** C2.  For a task with a non-empty list of dimensions, [process] calls the
    provider exactly once, with the requested dimensions rearranged in
    descending order of width.  For the request [(50,50), (100,100), (75,75)]
    the provider is called with [(100,100), (75,75), (50,50)], and when it
    answers with the images [a], [b], [c] the result lists [c], [a], [b]: the
    (50,50) image, the (100,100) image, the (75,75) image. *)
Theorem process_invokes_provider_once_widest_first :
  (∀ task wd,
     Dimensions task ≠ [] →
     ∃ sortedDimensions,
       trace (process task wd).2 =
         trace wd ++ [EvGenerateImages (Path task) sortedDimensions] ∧
       sortedDimensions ≡ₚ Dimensions task ∧
       StronglySorted (λ d1 d2, (w d2 ≤ w d1)%Z) sortedDimensions) ∧
  (∀ path wd a b c ps,
     generate (provider_state wd) path
       [mkGfxDimension 100 100; mkGfxDimension 75 75; mkGfxDimension 50 50]
       = ([a; b; c], ps) →
     process
       (mkGfxTask path [mkGfxDimension 50 50; mkGfxDimension 100 100; mkGfxDimension 75 75])
       wd =
     (Done (mkGfxTaskResult [c; a; b] SUCCESS),
      mkWorld ps
        (trace wd ++
         [EvGenerateImages path
            [mkGfxDimension 100 100; mkGfxDimension 75 75; mkGfxDimension 50 50]]))).
Proof.
  split.
  - intros task wd Hd. exists (sorted_dimensions task).
    rewrite (process_nonempty_world _ _ _ Hd). split; [done|]. split.
    + apply sorted_dimensions_Permutation.
    + apply sorted_dimensions_descending.
  - intros path wd a b c ps Hgen.
    rewrite process_nonempty by done.
    unfold after_generate, sorted_dimensions. simpl Dimensions. simpl Path.
    rewrite sorted_indices_50_100_75. simpl fmap.
    change (dimension_at _ 1) with (mkGfxDimension 100 100).
    change (dimension_at _ 2) with (mkGfxDimension 75 75).
    change (dimension_at _ 0) with (mkGfxDimension 50 50).
    by rewrite Hgen.
Qed.

(** C3.  For a task with an empty list of dimensions, [process] returns
    status [ERR] with no images and leaves the world as it was: the trace
    gains no provider call and the provider's state is untouched. *)
Theorem process_rejects_empty_dimensions task wd :
  Dimensions task = [] →
  process task wd = (Done (mkGfxTaskResult [] ERR), wd) ∧
  trace (process task wd).2 = trace wd.
Proof. intros Hd. by rewrite (process_empty _ _ _ Hd). Qed.

(** With a deterministic provider the outcome of [process] is a function of
    the task alone. *)
Lemma process_outcome_world_independent task wd1 wd2 :
  deterministic mGfxProvider →
  (process task wd1).1 = (process task wd2).1.
Proof.
  intros Hdet. destruct (decide (Dimensions task = [])) as [Hd|Hd].
  { by rewrite !(process_empty _ _ _ Hd). }
  rewrite !(process_nonempty _ _ _ Hd).
  rewrite (Hdet (provider_state wd1) (provider_state wd2)).
  destruct (stateless_assign_back (PS:=PS)
              (GfxProcessor.sorted_indices (Dimensions task))
              (generate (provider_state wd2) (Path task) (sorted_dimensions task)).1
              0 (replicate (length (Dimensions task)) "")) as [[out|] Hr].
  - by rewrite !(bind_Done _ _ _ _ _ (Hr _)).
  - by rewrite !(bind_Fault _ _ _ _ (Hr _)).
Qed.

(** C9.  With a deterministic provider, processing a task and then
    processing the same task again, in the world the first call left behind,
    gives the same outcome both times: the same status and the same images in
    the same order. *)
Theorem process_twice_same_result task wd :
  deterministic mGfxProvider →
  let first := process task wd in
  let second := process task first.2 in
  second.1 = first.1.
Proof. intros Hdet first second. by apply process_outcome_world_independent. Qed.

(** A result [process] returns for a non-empty request has status
    [SUCCESS]. *)
Lemma process_nonempty_status task wd result :
  Dimensions task ≠ [] →
  (process task wd).1 = Done result →
  ProcessStatus result = SUCCESS.
Proof.
  intros Hd. rewrite (process_nonempty _ _ _ Hd).
  destruct (stateless_assign_back (PS:=PS)
              (GfxProcessor.sorted_indices (Dimensions task))
              (generate (provider_state wd) (Path task) (sorted_dimensions task)).1
              0 (replicate (length (Dimensions task)) "")) as [[out|] Hr].
  - rewrite (bind_Done _ _ _ _ _ (Hr _)). simpl. by intros [= <-].
  - by rewrite (bind_Fault _ _ _ _ (Hr _)).
Qed.

(** C10, as amended.  [process] returns [ERR] exactly for an empty list of
    dimensions.  For a non-empty list, when the provider returns at most as
    many images as it was given dimensions, [process] returns [SUCCESS] with
    one slot per dimension, and every slot that no returned image is assigned
    to holds the empty string.  No result of [process] has status
    [PENDING]. *)
Theorem process_status task wd :
  let images := (generate (provider_state wd) (Path task) (sorted_dimensions task)).1 in
  (Dimensions task = [] →
     (process task wd).1 = Done (mkGfxTaskResult [] ERR)) ∧
  (Dimensions task ≠ [] →
   length images ≤ length (Dimensions task) →
     ∃ out,
       (process task wd).1 = Done (mkGfxTaskResult out SUCCESS) ∧
       length out = length (Dimensions task) ∧
       ∀ j, j < length (Dimensions task) →
         (∀ k, k < length images →
               GfxProcessor.sorted_indices (Dimensions task) !! k ≠ Some j) →
         out !! j = Some "") ∧
  (∀ result,
     (process task wd).1 = Done result →
     ProcessStatus result ≠ PENDING ∧
     (ProcessStatus result = ERR ↔ Dimensions task = [])).
Proof.
  intros images. split; [|split].
  - intros Hd. by rewrite (process_empty _ _ _ Hd).
  - intros Hd Hlen.
    destruct (process_nonempty_done mGfxProvider task wd Hd Hlen)
      as (out & Hrun & Hl & _ & Hkeep).
    exists out. rewrite Hrun. split; [done|]. split; [done|]. exact Hkeep.
  - intros result Hrun. destruct (decide (Dimensions task = [])) as [Hd|Hd].
    + rewrite (process_empty _ _ _ Hd) in Hrun. simpl in Hrun.
      injection Hrun as <-. simpl. split; [done|]. by split.
    + rewrite (process_nonempty_status _ _ _ Hd Hrun). split; [done|].
      split; [done|]. intros E. by destruct Hd.
Qed.

(** C4.  [supportedformats] appends the fixed suffix to the provider's list
    when there is one, so that [".jpg.png"] becomes
    [".jpg.png.tif.exr.pic.pct.tiff.pict"]; when the provider has no list
    (a null pointer) the answer is the empty string, without the suffix. *)
Theorem supportedformats_appends_suffix ps :
  (∀ formats,
     IGfxProvider.supportedformats mGfxProvider ps = Some formats →
     GfxProcessor.supportedformats mGfxProvider ps
       = formats +:+ ".tif.exr.pic.pct.tiff.pict") ∧
  (IGfxProvider.supportedformats mGfxProvider ps = Some ".jpg.png" →
     GfxProcessor.supportedformats mGfxProvider ps
       = ".jpg.png.tif.exr.pic.pct.tiff.pict") ∧
  (IGfxProvider.supportedformats mGfxProvider ps = None →
     GfxProcessor.supportedformats mGfxProvider ps = "").
Proof.
  unfold GfxProcessor.supportedformats.
  split; [|split]; intros; by simplify_option_eq.
Qed.
End GfxProcessorClaims.

(** ** [RequestProcessor] *)

Section RequestProcessorClaims.
Context {PS : Type}.
Variable mGfxProcessor : IGfxProcessor.t PS.

(** C6.  Handling a NewGfx command hands its task to the gfx processor and,
    from the result, writes one response on the command's endpoint: error
    code 0 and text "OK" for status [SUCCESS], error code 1 and text "ERROR"
    for status [ERR], and the images of the result as they are. *)
Theorem processGfx_maps_status_and_attaches_images endpoint Task wd result wd' :
  IGfxProcessor.process mGfxProcessor Task wd = (Done result, wd') →
  ∃ response,
    RequestProcessor.run mGfxProcessor (mkJob endpoint (CommandNewGfx Task)) wd =
      RequestProcessor.processGfx mGfxProcessor endpoint (Some Task) wd ∧
    RequestProcessor.processGfx mGfxProcessor endpoint (Some Task) wd =
      (Done tt,
       mkWorld (provider_state wd')
         (trace wd' ++
          [EvWriteCommand (endpoint_id endpoint) (NewGfxResponse response)
             RequestProcessor.WRITE_TIMEOUT])) ∧
    Images response = OutputImages result ∧
    (ProcessStatus result = SUCCESS →
       ErrorCode response = 0%Z ∧ ErrorText response = "OK") ∧
    (ProcessStatus result = ERR →
       ErrorCode response = 1%Z ∧ ErrorText response = "ERROR").
Proof.
  intros Hrun. exists (RequestProcessor.gfx_response result).
  split; [done|]. split.
  - unfold RequestProcessor.processGfx.
    rewrite (bind_Done _ _ wd (Task) wd) by done.
    by rewrite (bind_Done _ _ _ _ _ Hrun).
  - split; [done|]. split; intros Hs; simpl; by rewrite Hs.
Qed.

(** C7.  The read deadline is 5000 ms.  When the read on a connection ends
    in a short read, a malformed frame, an unsupported version or the expiry
    of that deadline, [process] returns [false] and leaves the world as it
    was: nothing is written on the endpoint and nothing is pushed to the
    thread pool. *)
Theorem process_drops_unreadable_connection endpoint (wd : World PS) :
  RequestProcessor.READ_TIMEOUT = 5000%Z ∧
  (incoming endpoint 5000%Z = ShortRead ∨
   incoming endpoint 5000%Z = MalformedFrame ∨
   incoming endpoint 5000%Z = UnsupportedVersion ∨
   incoming endpoint 5000%Z = DeadlineExpired →
   RequestProcessor.process endpoint wd = (Done false, wd) ∧
   trace (RequestProcessor.process endpoint wd).2 = trace wd).
Proof.
  split; [done|]. intros Hfail.
  assert (readCommand endpoint RequestProcessor.READ_TIMEOUT = None) as Hnull.
  { unfold readCommand, RequestProcessor.READ_TIMEOUT.
    by destruct Hfail as [-> | [-> | [-> | ->]]]. }
  unfold RequestProcessor.process. by rewrite Hnull.
Qed.

(** C8.  When the read decodes a command, [process] pushes exactly one job
    to the thread pool, the one holding the endpoint and the command, writes
    nothing itself, and returns [true] exactly when the command is a
    shutdown.  The job of a shutdown command is queued like any other; when
    the pool runs it, it writes the shutdown acknowledgement on the endpoint
    and does nothing else. *)
Theorem process_queues_decoded_command endpoint command (wd : World PS) :
  incoming endpoint RequestProcessor.READ_TIMEOUT = Decoded command →
  ∃ stopRunning,
    RequestProcessor.process endpoint wd =
      (Done stopRunning,
       mkWorld (provider_state wd)
         (trace wd ++ [EvPoolPush (mkJob endpoint command)])) ∧
    (stopRunning = true ↔ type command = SHUTDOWN) ∧
    (type command = SHUTDOWN →
     ∀ wd',
       RequestProcessor.run mGfxProcessor (mkJob endpoint command) wd' =
         (Done tt,
          mkWorld (provider_state wd')
            (trace wd' ++
             [EvWriteCommand (endpoint_id endpoint) CommandShutDownResponse
                RequestProcessor.WRITE_TIMEOUT]))).
Proof.
  intros Hread. exists (bool_decide (type command = SHUTDOWN)). split; [|split].
  - unfold RequestProcessor.process, readCommand. by rewrite Hread.
  - apply bool_decide_eq_true.
  - intros Hshutdown wd'. unfold RequestProcessor.run. simpl. by rewrite Hshutdown.
Qed.
End RequestProcessorClaims.

(** ** The order of the extensions the worker adds *)

Lemma extensions_extraFormatsByWorker :
  extensions GfxProcessor.extraFormatsByWorker
    = [".tif"; ".exr"; ".pic"; ".pct"; ".tiff"; ".pict"].
Proof. reflexivity. Qed.

(** C5, as stated, fails: in the suffix [.tiff] is a longer extension that
    begins with [.tif], and it stands after [.tif], not before it. *)
Lemma extraFormatsByWorker_not_longest_match_first :
  extensions GfxProcessor.extraFormatsByWorker !! 0 = Some ".tif" ∧
  extensions GfxProcessor.extraFormatsByWorker !! 4 = Some ".tiff" ∧
  proper_prefix ".tif" ".tiff" = true ∧
  ¬ longest_match_first (extensions GfxProcessor.extraFormatsByWorker).
Proof.
  split; [done|]. split; [done|]. split; [done|].
  intros Hclaim.
  pose proof (Hclaim 4 0 ".tiff" ".tif" eq_refl eq_refl eq_refl). lia.
Qed.

(** C5, as amended.  The extensions of the suffix are in order of length,
    shortest first, so that every extension stands before the longer ones
    that begin with it; [.tif] stands before [.tiff]. *)
Theorem extraFormatsByWorker_shortest_match_first :
  shortest_match_first (extensions GfxProcessor.extraFormatsByWorker) ∧
  StronglySorted (λ a b, String.length a ≤ String.length b)
    (extensions GfxProcessor.extraFormatsByWorker) ∧
  (∃ i j,
     extensions GfxProcessor.extraFormatsByWorker !! i = Some ".tif" ∧
     extensions GfxProcessor.extraFormatsByWorker !! j = Some ".tiff" ∧
     i < j).
Proof.
  rewrite extensions_extraFormatsByWorker. split; [|split].
  - intros i j long short Hi Hj Hp.
    destruct i as [|[|[|[|[|[|i]]]]]]; simplify_eq/=;
      destruct j as [|[|[|[|[|[|j]]]]]]; simplify_eq/=; lia.
  - repeat constructor; simpl; lia.
  - exists 0, 4. split; [done|]. split; [done|]. lia.
Qed.

(** ** The theorems at sample inputs *)

Lemma rendering_provider_one_image_per_dimension fmts :
  one_image_per_dimension (rendering_provider fmts).
Proof. intros ps path dimensions. simpl. apply length_fmap. Qed.

Lemma rendering_provider_deterministic fmts :
  deterministic (rendering_provider fmts).
Proof. by intros ps1 ps2 path dimensions. Qed.

Lemma process_restores_request_order_witness :
  Dimensions sample_task ≠ [] ∧
  one_image_per_dimension (rendering_provider None) ∧
  ∃ out,
    GfxProcessor.process (rendering_provider None) sample_task sample_world =
      (Done (mkGfxTaskResult out SUCCESS),
       after_generate (rendering_provider None) sample_task sample_world) ∧
    length out = 3.
Proof.
  assert (Dimensions sample_task ≠ []) as H1 by done.
  pose proof (rendering_provider_one_image_per_dimension None) as H2.
  split; [exact H1|]. split; [exact H2|].
  destruct (process_restores_request_order (rendering_provider None)
              sample_task sample_world H1 H2) as (out & Hrun & Hl & _).
  exists out. split; [exact Hrun|exact Hl].
Defined.

Lemma process_invokes_provider_once_widest_first_witness :
  Dimensions sample_task ≠ [] ∧
  (∃ sortedDimensions,
     trace (GfxProcessor.process (rendering_provider None) sample_task sample_world).2 =
       [EvGenerateImages "/photo.jpg" sortedDimensions] ∧
     sortedDimensions ≡ₚ Dimensions sample_task) ∧
  GfxProcessor.process (rendering_provider None) sample_task sample_world =
    (Done (mkGfxTaskResult
             ["/photo.jpg@50x50"; "/photo.jpg@100x100"; "/photo.jpg@75x75"] SUCCESS),
     mkWorld 1
       [EvGenerateImages "/photo.jpg"
          [mkGfxDimension 100 100; mkGfxDimension 75 75; mkGfxDimension 50 50]]).
Proof.
  assert (Dimensions sample_task ≠ []) as H1 by done.
  split; [exact H1|]. split.
  - destruct (proj1 (process_invokes_provider_once_widest_first (rendering_provider None))
                sample_task sample_world H1) as (sortedDimensions & Htrace & Hperm & _).
    exists sortedDimensions. split; [exact Htrace|exact Hperm].
  - apply (proj2 (process_invokes_provider_once_widest_first (rendering_provider None))
             "/photo.jpg" sample_world
             "/photo.jpg@100x100" "/photo.jpg@75x75" "/photo.jpg@50x50" 1).
    reflexivity.
Defined.

Lemma process_rejects_empty_dimensions_witness :
  Dimensions (mkGfxTask "/photo.jpg" []) = [] ∧
  GfxProcessor.process (rendering_provider None) (mkGfxTask "/photo.jpg" []) sample_world
    = (Done (mkGfxTaskResult [] ERR), sample_world).
Proof.
  split; [reflexivity|].
  apply (process_rejects_empty_dimensions (rendering_provider None)
           (mkGfxTask "/photo.jpg" []) sample_world).
  reflexivity.
Defined.

Lemma supportedformats_appends_suffix_witness :
  IGfxProvider.supportedformats (rendering_provider (Some ".jpg.png")) 0 = Some ".jpg.png" ∧
  GfxProcessor.supportedformats (rendering_provider (Some ".jpg.png")) 0
    = ".jpg.png.tif.exr.pic.pct.tiff.pict" ∧
  IGfxProvider.supportedformats (rendering_provider None) 0 = None ∧
  GfxProcessor.supportedformats (rendering_provider None) 0 = "".
Proof.
  split; [reflexivity|]. split.
  - apply (supportedformats_appends_suffix (rendering_provider (Some ".jpg.png")) 0).
    reflexivity.
  - split; [reflexivity|].
    apply (supportedformats_appends_suffix (rendering_provider None) 0). reflexivity.
Defined.

Lemma process_twice_same_result_witness :
  deterministic (rendering_provider None) ∧
  (GfxProcessor.process (rendering_provider None) sample_task
     (GfxProcessor.process (rendering_provider None) sample_task sample_world).2).1
  = (GfxProcessor.process (rendering_provider None) sample_task sample_world).1.
Proof.
  pose proof (rendering_provider_deterministic None) as H1.
  split; [exact H1|].
  exact (process_twice_same_result (rendering_provider None) sample_task sample_world H1).
Defined.

(** C10, as stated, fails: a provider that returns two images for a request
    of one dimension sends the loop past the end of the index vector, and
    [process] does not return [SUCCESS]. *)
Lemma process_faults_on_surplus_image :
  Dimensions (mkGfxTask "/photo.jpg" [mkGfxDimension 1 1]) ≠ [] ∧
  GfxProcessor.process (fixed_provider ["a"; "b"])
    (mkGfxTask "/photo.jpg" [mkGfxDimension 1 1]) (mkWorld tt [])
  = (Fault, mkWorld tt [EvGenerateImages "/photo.jpg" [mkGfxDimension 1 1]]).
Proof. split; [done|reflexivity]. Qed.

Lemma process_status_witness :
  (Dimensions (mkGfxTask "/photo.jpg" []) = [] ∧
   (GfxProcessor.process (fixed_provider ["a"]) (mkGfxTask "/photo.jpg" [])
      (mkWorld tt [])).1 = Done (mkGfxTaskResult [] ERR)) ∧
  (Dimensions sample_task ≠ [] ∧
   length (IGfxProvider.generateImages (fixed_provider ["a"]) tt
             (Path sample_task) (sorted_dimensions sample_task)).1
     ≤ length (Dimensions sample_task) ∧
   ∃ out,
     (GfxProcessor.process (fixed_provider ["a"]) sample_task (mkWorld tt [])).1
       = Done (mkGfxTaskResult out SUCCESS) ∧
     length out = 3) ∧
  ((GfxProcessor.process (fixed_provider ["a"]) sample_task (mkWorld tt [])).1
     = Done (mkGfxTaskResult [""; "a"; ""] SUCCESS) ∧
   SUCCESS ≠ PENDING ∧
   (SUCCESS = ERR ↔ Dimensions sample_task = [])).
Proof.
  split; [|split].
  - split; [reflexivity|].
    apply (proj1 (process_status (fixed_provider ["a"]) (mkGfxTask "/photo.jpg" [])
                    (mkWorld tt []))).
    reflexivity.
  - assert (Dimensions sample_task ≠ []) as H1 by done.
    assert (length (IGfxProvider.generateImages (fixed_provider ["a"]) tt
                      (Path sample_task) (sorted_dimensions sample_task)).1
            ≤ length (Dimensions sample_task)) as H2 by (simpl; lia).
    split; [exact H1|]. split; [exact H2|].
    destruct (proj1 (proj2 (process_status (fixed_provider ["a"]) sample_task
                              (mkWorld tt []))) H1 H2) as (out & Hrun & Hl & _).
    exists out. split; [exact Hrun|exact Hl].
  - assert ((GfxProcessor.process (fixed_provider ["a"]) sample_task (mkWorld tt [])).1
            = Done (mkGfxTaskResult [""; "a"; ""] SUCCESS)) as H3 by reflexivity.
    split; [exact H3|].
    exact (proj2 (proj2 (process_status (fixed_provider ["a"]) sample_task
                           (mkWorld tt []))) _ H3).
Defined.

Lemma processGfx_maps_status_and_attaches_images_witness :
  IGfxProcessor.process sample_processor sample_task sample_world
    = (Done sample_result, sample_world_after) ∧
  ∃ response,
    RequestProcessor.processGfx sample_processor gfx_endpoint (Some sample_task) sample_world
      = (Done tt,
         mkWorld 1
           (trace sample_world_after ++
            [EvWriteCommand 7 (NewGfxResponse response) 5000%Z])) ∧
    Images response = OutputImages sample_result ∧
    ErrorCode response = 0%Z ∧
    ErrorText response = "OK".
Proof.
  assert (IGfxProcessor.process sample_processor sample_task sample_world
          = (Done sample_result, sample_world_after)) as H1 by reflexivity.
  split; [exact H1|].
  destruct (processGfx_maps_status_and_attaches_images sample_processor gfx_endpoint
              sample_task sample_world sample_result sample_world_after H1)
    as (response & _ & Hrun & Himages & Hok & _).
  exists response. split; [exact Hrun|]. split; [exact Himages|].
  exact (Hok eq_refl).
Defined.

Lemma process_drops_unreadable_connection_witness :
  incoming slow_endpoint 5000%Z = DeadlineExpired ∧
  RequestProcessor.process slow_endpoint sample_world = (Done false, sample_world).
Proof.
  assert (incoming slow_endpoint 5000%Z = DeadlineExpired) as H1 by reflexivity.
  split; [exact H1|].
  apply (proj2 (process_drops_unreadable_connection slow_endpoint sample_world)).
  right. right. right. exact H1.
Defined.

Lemma process_queues_decoded_command_witness :
  incoming shutdown_endpoint RequestProcessor.READ_TIMEOUT = Decoded CommandShutDown ∧
  RequestProcessor.process shutdown_endpoint sample_world
    = (Done true, mkWorld 0 [EvPoolPush (mkJob shutdown_endpoint CommandShutDown)]).
Proof.
  assert (incoming shutdown_endpoint RequestProcessor.READ_TIMEOUT
          = Decoded CommandShutDown) as H1 by reflexivity.
  split; [exact H1|].
  destruct (process_queues_decoded_command sample_processor shutdown_endpoint
              CommandShutDown sample_world H1) as (stopRunning & Hrun & Hstop & _).
  rewrite Hrun. by rewrite (proj2 Hstop eq_refl).
Defined.

(** * Further properties *)

(** ** [GfxSize::toString] *)

Lemma pretty_N_go_free_of_x n s :
  free_of "x" s → free_of "x" (pretty_N_go n s).
Proof.
  revert s. induction (N.lt_wf_0 n) as [n _ IH]; intros s Hs.
  assert (n = 0 ∨ 0 < n)%N as [->|Hpos] by lia.
  - by rewrite pretty_N_go_0.
  - rewrite pretty_N_go_step by done. apply IH.
    { by apply N.div_lt. }
    split; [|done]. unfold pretty_N_char. by repeat case_match.
Qed.

Lemma to_string_free_of_x n : free_of "x" (GfxSize.to_string n).
Proof.
  assert (∀ m : N, free_of "x" (pretty m)) as HN.
  { intros m. unfold pretty, pretty_N. case_decide; [done|].
    by apply pretty_N_go_free_of_x. }
  unfold GfxSize.to_string, pretty, pretty_Z.
  destruct n as [|p|p]; [done|apply HN|]. split; [done|apply HN].
Qed.

Lemma append_x_inj s1 s2 t1 t2 :
  free_of "x" s1 → free_of "x" s2 →
  s1 +:+ String "x" t1 = s2 +:+ String "x" t2 →
  s1 = s2 ∧ t1 = t2.
Proof.
  revert s2. induction s1 as [|a s1 IH]; intros [|b s2] H1 H2 E; simpl in *.
  - by injection E.
  - injection E as Eb _. destruct H2 as [H2 _]. congruence.
  - injection E as Ea _. destruct H1 as [H1 _]. congruence.
  - injection E as Eab E. destruct (IH s2) as [Es Et]; [tauto|tauto|done|].
    by rewrite Eab, Es, Et.
Qed.

Lemma toString_eq_inv (a b : GfxSize.t) :
  GfxSize.toString a = GfxSize.toString b → a = b.
Proof.
  destruct a as [wa ha], b as [wb hb]. unfold GfxSize.toString. simpl. intros E.
  apply append_x_inj in E as [Ew Eh]; [|apply to_string_free_of_x..].
  unfold GfxSize.to_string in *.
  apply (inj pretty) in Ew. apply (inj pretty) in Eh. by subst.
Qed.

(** X1.  [toString] tells sizes apart: two sizes with the same text have the
    same width and the same height. *)
Theorem GfxSize_toString_inj (a b : GfxSize.t) :
  GfxSize.toString a = GfxSize.toString b → a = b.
Proof. apply toString_eq_inv. Qed.

Lemma GfxSize_toString_inj_witness :
  GfxSize.toString (GfxSize.Build 120 0) = "120x0" ∧
  GfxSize.setW (GfxSize.Build 12 0) 120 = GfxSize.Build 120 0.
Proof.
  split; [reflexivity|].
  apply (GfxSize_toString_inj (GfxSize.setW (GfxSize.Build 12 0) 120) (GfxSize.Build 120 0)).
  reflexivity.
Defined.

(** ** More on [GfxProcessor::process] *)

Lemma StronglySorted_lookup {A} (R : relation A) l i j x y :
  StronglySorted R l → i < j → l !! i = Some x → l !! j = Some y → R x y.
Proof.
  intros Hs. revert i j. induction Hs as [|a l Hs IH Ha]; intros i j Hij Hi Hj.
  { by rewrite lookup_nil in Hi. }
  destruct j as [|j]; [lia|]. destruct i as [|i]; simpl in *.
  - injection Hi as <-.
    eapply (proj1 (Forall_forall _ _) Ha), list_elem_of_lookup_2, Hj.
  - apply (IH i j); [lia|done..].
Qed.

Section GfxProcessorFurther.
Context {PS : Type}.
Variable mGfxProvider : IGfxProvider.t PS.

Local Abbreviation generate := (IGfxProvider.generateImages mGfxProvider).

(** With a provider that renders every dimension on its own, the slots of
    the result are the renderings of the requested dimensions, in the order
    of the request. *)
Lemma process_pointwise_done `{!StdSort} task wd
    (f : string → GfxDimension → string) :
  Dimensions task ≠ [] →
  (∀ ps path dimensions, (generate ps path dimensions).1 = f path <$> dimensions) →
  GfxProcessor.process mGfxProvider task wd
    = (Done (mkGfxTaskResult (f (Path task) <$> Dimensions task) SUCCESS),
       after_generate mGfxProvider task wd).
Proof.
  intros Hd Hf.
  destruct (process_nonempty_done mGfxProvider task wd Hd) as (out & Hrun & Hl & Hset & _).
  { rewrite Hf. unfold sorted_dimensions.
    by rewrite !length_fmap, sorted_indices_length. }
  rewrite Hrun. do 3 f_equal.
  apply list_eq. intros i. rewrite list_lookup_fmap.
  destruct (decide (i < length (Dimensions task))) as [Hi|Hi].
  - destruct (lookup_lt_is_Some_2 _ _ Hi) as [d Hdi]. rewrite Hdi. simpl.
    apply sorted_indices_elem_of, list_elem_of_lookup_1 in Hi as [k Hk].
    rewrite (Hset k i); [|rewrite Hf; unfold sorted_dimensions;
      rewrite !length_fmap; by eapply lookup_lt_Some|done].
    rewrite Hf. unfold sorted_dimensions.
    rewrite !list_lookup_fmap, Hk. simpl. unfold dimension_at. by rewrite Hdi.
  - rewrite (lookup_ge_None_2 out) by lia.
    by rewrite (lookup_ge_None_2 (Dimensions task)) by lia.
Qed.

(** X2.  When the provider renders every dimension on its own, by a
    function [f] of the path and the dimension, the result of [process] is
    [f] applied to the requested dimensions in the order of the request,
    duplicates included: the widest-first order of the call leaves no
    mark on the result. *)
Theorem process_pointwise_provider `{!StdSort} task wd
    (f : string → GfxDimension → string) :
  Dimensions task ≠ [] →
  (∀ ps path dimensions, (generate ps path dimensions).1 = f path <$> dimensions) →
  (GfxProcessor.process mGfxProvider task wd).1
    = Done (mkGfxTaskResult (f (Path task) <$> Dimensions task) SUCCESS).
Proof. intros Hd Hf. by rewrite (process_pointwise_done _ _ f Hd Hf). Qed.

(** X3.  The list the provider is called with is not empty and starts with
    a widest dimension of the request. *)
Theorem process_calls_provider_widest_first `{!StdSort} task wd :
  Dimensions task ≠ [] →
  ∃ first rest,
    trace (GfxProcessor.process mGfxProvider task wd).2
      = trace wd ++ [EvGenerateImages (Path task) (first :: rest)] ∧
    length (first :: rest) = length (Dimensions task) ∧
    first ∈ Dimensions task ∧
    ∀ d, d ∈ Dimensions task → (w d ≤ w first)%Z.
Proof.
  intros Hd. rewrite (process_nonempty_world _ _ _ Hd). unfold after_generate. simpl.
  pose proof (sorted_dimensions_Permutation (Dimensions task)) as Hperm.
  pose proof (sorted_dimensions_descending (Dimensions task)) as Hsorted.
  fold (sorted_dimensions task) in Hperm, Hsorted.
  destruct (sorted_dimensions task) as [|first rest].
  { apply Permutation_nil in Hperm. by destruct Hd. }
  exists first, rest. split; [done|]. split; [exact (Permutation_length Hperm)|]. split.
  - rewrite <-Hperm. by left.
  - intros d Hin. rewrite <-Hperm in Hin.
    apply StronglySorted_cons in Hsorted as [Hfirst _].
    apply elem_of_cons in Hin as [->|Hin]; [lia|].
    by apply (proj1 (Forall_forall _ _) Hfirst).
Qed.


(** X5.  When the provider returns fewer images than it was given
    dimensions, [process] still returns [SUCCESS]; the images go to the slots
    of the first sorted indices, the slots of the remaining indices hold the
    empty string, and no slot left empty belongs to a dimension wider than
    one of a filled slot. *)
Theorem process_short_provider_fills_widest `{!StdSort} task wd :
  Dimensions task ≠ [] →
  let images := (generate (provider_state wd) (Path task) (sorted_dimensions task)).1 in
  let indices := GfxProcessor.sorted_indices (Dimensions task) in
  length images ≤ length (Dimensions task) →
  ∃ out,
    (GfxProcessor.process mGfxProvider task wd).1
      = Done (mkGfxTaskResult out SUCCESS) ∧
    (∀ k i, k < length images → indices !! k = Some i → out !! i = images !! k) ∧
    (∀ k i, length images ≤ k → indices !! k = Some i → out !! i = Some "") ∧
    (∀ k k' i i' d d',
       k' < length images → length images ≤ k →
       indices !! k = Some i → indices !! k' = Some i' →
       Dimensions task !! i = Some d → Dimensions task !! i' = Some d' →
       (w d ≤ w d')%Z).
Proof.
  intros Hd images indices Hlen.
  destruct (process_nonempty_done mGfxProvider task wd Hd Hlen)
    as (out & Hrun & Hl & Hset & Hkeep).
  exists out. rewrite Hrun. split; [done|]. split; [exact Hset|]. split.
  - intros k i Hk Hi. apply Hkeep.
    + by apply sorted_indices_elem_of, list_elem_of_lookup_2 with k.
    + intros k' Hk' Hi'.
      pose proof (NoDup_lookup _ _ _ _ (sorted_indices_NoDup (Dimensions task)) Hi Hi').
      subst images. lia.
  - intros k k' i i' d d' Hk' Hk Hi Hi' Hdi Hdi'.
    pose proof (StronglySorted_lookup _ _ k' k i' i
                  (sorted_indices_descending (Dimensions task))
                  ltac:(lia) Hi' Hi) as Hle.
    unfold GfxProcessor.width_at in Hle. by rewrite Hdi, Hdi' in Hle.
Qed.

(** X6.  The order in which the provider sees the dimensions does not
    depend on the [std::sort] in use when requests of equal width are equal
    in height too, and so whenever the widths are pairwise distinct. *)
Theorem sorted_dimensions_unique (S1 S2 : StdSort) task :
  (∀ d1 d2, d1 ∈ Dimensions task → d2 ∈ Dimensions task → w d1 = w d2 → d1 = d2) →
  @sorted_dimensions S1 task = @sorted_dimensions S2 task.
Proof.
  intros Hties.
  apply (StronglySorted_unique_strong (λ d1 d2, (w d2 ≤ w d1)%Z)).
  - intros d1 d2 H1 H2 Hle1 Hle2. apply Hties; [| |lia].
    + by rewrite <-(@sorted_dimensions_Permutation S1 (Dimensions task)).
    + by rewrite <-(@sorted_dimensions_Permutation S2 (Dimensions task)).
  - apply sorted_dimensions_descending.
  - apply sorted_dimensions_descending.
  - unfold sorted_dimensions. by rewrite !sorted_dimensions_Permutation.
Qed.

(** X7.  [supportedformats] answers with the empty string exactly when the
    provider has no list; a provider list that is present but empty still
    gets the suffix. *)
Theorem supportedformats_empty_iff_null ps :
  (GfxProcessor.supportedformats mGfxProvider ps = ""
     ↔ IGfxProvider.supportedformats mGfxProvider ps = None) ∧
  (IGfxProvider.supportedformats mGfxProvider ps = Some "" →
     GfxProcessor.supportedformats mGfxProvider ps = ".tif.exr.pic.pct.tiff.pict").
Proof.
  unfold GfxProcessor.supportedformats.
  destruct (IGfxProvider.supportedformats mGfxProvider ps) as [formats|]; split.
  - split; [|done]. intros E. by destruct formats.
  - by intros [= ->].
  - done.
  - done.
Qed.
End GfxProcessorFurther.

(** ** More on [RequestProcessor] *)

Section RequestProcessorFurther.
Context {PS : Type}.


Variable mGfxProcessor : IGfxProcessor.t PS.

(** X9.  A job that runs to its end has answered in kind: the last call it
    made is the write, on its endpoint, of the response that belongs to its
    command; a job whose command is none of the four requests has done
    nothing. *)
Theorem run_answers_in_kind job wd wd' :
  RequestProcessor.run mGfxProcessor job wd = (Done tt, wd') →
  let written response :=
    last (trace wd')
      = Some (EvWriteCommand (endpoint_id (job_endpoint job)) response
                RequestProcessor.WRITE_TIMEOUT) in
  match type (job_command job) with
  | HELLO => written CommandHelloResponse
  | SHUTDOWN => written CommandShutDownResponse
  | NEW_GFX => ∃ r, written (NewGfxResponse r)
  | SUPPORT_FORMATS => ∃ r, written (SupportFormatsResponse r)
  | _ => wd' = wd
  end.
Proof.
  destruct job as [endpoint command].
  destruct command as [| |Task| | | |r|r];
    unfold RequestProcessor.run, RequestProcessor.processHello,
      RequestProcessor.processShutDown, RequestProcessor.processSupportFormats,
      RequestProcessor.writeCommand, emit; simpl.
  - intros [= <-]. simpl. by rewrite last_snoc.
  - intros [= <-]. simpl. by rewrite last_snoc.
  - unfold RequestProcessor.processGfx.
    rewrite (bind_Done _ _ wd Task wd) by done.
    destruct (IGfxProcessor.process mGfxProcessor Task wd) as [[result|] wd1] eqn:Hp.
    + rewrite (bind_Done _ _ _ _ _ Hp). intros [= <-].
      eexists. simpl. by rewrite last_snoc.
    + by rewrite (bind_Fault _ _ _ _ Hp).
  - intros [= <-]. eexists. simpl. by rewrite last_snoc.
  - by intros [= <-].
  - by intros [= <-].
  - by intros [= <-].
  - by intros [= <-].
Qed.

(** X10.  In the response to a NewGfx command the text is "OK" exactly when
    the code is 0, that is when the processor reported [SUCCESS]; every other
    status, [PENDING] included, goes out as its own code with the text
    "ERROR". *)
Theorem processGfx_text_follows_code endpoint Task wd result wd' :
  IGfxProcessor.process mGfxProcessor Task wd = (Done result, wd') →
  ∃ response,
    (RequestProcessor.processGfx mGfxProcessor endpoint (Some Task) wd).2
      = mkWorld (provider_state wd')
          (trace wd' ++
           [EvWriteCommand (endpoint_id endpoint) (NewGfxResponse response)
              RequestProcessor.WRITE_TIMEOUT]) ∧
    ErrorCode response = status_value (ProcessStatus result) ∧
    (ErrorText response = "OK" ↔ ErrorCode response = 0%Z) ∧
    (ErrorText response = "OK" ↔ ProcessStatus result = SUCCESS) ∧
    (ErrorText response ≠ "OK" → ErrorText response = "ERROR") ∧
    (ProcessStatus result = PENDING → ErrorCode response = 2%Z).
Proof.
  intros Hp. exists (RequestProcessor.gfx_response result). split.
  - unfold RequestProcessor.processGfx.
    rewrite (bind_Done _ _ wd Task wd) by done.
    by rewrite (bind_Done _ _ _ _ _ Hp).
  - destruct result as [images []]; simpl; repeat split; try done; try lia.
Qed.
End RequestProcessorFurther.

(** ** A request from the read to the response *)

Section EndToEnd.
Context {PS : Type} `{!StdSort}.
Variable mGfxProvider : IGfxProvider.t PS.

Local Abbreviation generate := (IGfxProvider.generateImages mGfxProvider).
Local Abbreviation processor := (GfxProcessor.as_IGfxProcessor mGfxProvider).

(** X11.  A NewGfx command with dimensions, served by a provider that
    renders every dimension on its own: [process] queues one job and returns
    [false]; the job, once run, calls the provider once, widest first, and
    answers on the same endpoint with code 0, text "OK" and the renderings in
    the order of the request. *)
Theorem newgfx_request_served endpoint task wd (f : string → GfxDimension → string) :
  incoming endpoint RequestProcessor.READ_TIMEOUT = Decoded (CommandNewGfx task) →
  Dimensions task ≠ [] →
  (∀ ps path dimensions, (generate ps path dimensions).1 = f path <$> dimensions) →
  ∃ job wd1 wd2,
    RequestProcessor.process endpoint wd = (Done false, wd1) ∧
    trace wd1 = trace wd ++ [EvPoolPush job] ∧
    RequestProcessor.run processor job wd1 = (Done tt, wd2) ∧
    trace wd2 =
      trace wd1 ++
      [EvGenerateImages (Path task) (sorted_dimensions task);
       EvWriteCommand (endpoint_id endpoint)
         (NewGfxResponse
            (mkCommandNewGfxResponse 0 "OK" (f (Path task) <$> Dimensions task)))
         RequestProcessor.WRITE_TIMEOUT].
Proof.
  intros Hread Hd Hf.
  eexists (mkJob endpoint (CommandNewGfx task)), _, _. split; [|split; [|split]].
  - unfold RequestProcessor.process, readCommand. rewrite Hread. reflexivity.
  - reflexivity.
  - unfold RequestProcessor.run, RequestProcessor.processGfx. simpl.
    rewrite (bind_Done _ _ _ task _) by done.
    erewrite bind_Done; [|apply (process_pointwise_done mGfxProvider _ _ f Hd Hf)].
    reflexivity.
  - simpl. by rewrite <-app_assoc.
Qed.

(** X12.  A NewGfx command without dimensions is answered all the same:
    the job writes one response with code 1, text "ERROR" and no images, and
    the provider is neither called nor changed. *)
Theorem newgfx_request_without_dimensions endpoint task wd :
  incoming endpoint RequestProcessor.READ_TIMEOUT = Decoded (CommandNewGfx task) →
  Dimensions task = [] →
  ∃ job wd1 wd2,
    RequestProcessor.process endpoint wd = (Done false, wd1) ∧
    trace wd1 = trace wd ++ [EvPoolPush job] ∧
    RequestProcessor.run processor job wd1 = (Done tt, wd2) ∧
    trace wd2 =
      trace wd1 ++
      [EvWriteCommand (endpoint_id endpoint)
         (NewGfxResponse (mkCommandNewGfxResponse 1 "ERROR" []))
         RequestProcessor.WRITE_TIMEOUT] ∧
    provider_state wd2 = provider_state wd.
Proof.
  intros Hread Hd.
  eexists (mkJob endpoint (CommandNewGfx task)), _, _.
  split; [|split; [|split; [|split]]].
  - unfold RequestProcessor.process, readCommand. rewrite Hread. reflexivity.
  - reflexivity.
  - unfold RequestProcessor.run, RequestProcessor.processGfx. simpl.
    rewrite (bind_Done _ _ _ task _) by done.
    erewrite bind_Done; [|apply (process_empty mGfxProvider _ _ Hd)].
    reflexivity.
  - reflexivity.
  - reflexivity.
Qed.

End EndToEnd.

(** ** [GfxSize]: comparison and text *)

(** X14.  [operator==] holds between two sizes exactly when their texts are
    the same, and [operator!=] exactly when the texts differ. *)
Theorem GfxSize_eq_iff_toString (a b : GfxSize.t) :
  (GfxSize.eq a b = true ↔ GfxSize.toString a = GfxSize.toString b) ∧
  (GfxSize.ne a b = true ↔ GfxSize.toString a ≠ GfxSize.toString b).
Proof.
  assert (GfxSize.eq a b = true ↔ GfxSize.toString a = GfxSize.toString b) as Heq.
  { split.
    - unfold GfxSize.eq. rewrite andb_true_iff, !Z.eqb_eq. intros [Hw Hh].
      unfold GfxSize.toString. by rewrite Hw, Hh.
    - intros E. apply toString_eq_inv in E as ->.
      unfold GfxSize.eq. by rewrite !Z.eqb_refl. }
  split; [exact Heq|]. unfold GfxSize.ne. rewrite negb_true_iff.
  rewrite <-Heq. by destruct (GfxSize.eq a b).
Qed.

(** ** The further theorems at sample inputs *)

Lemma process_pointwise_provider_witness :
  Dimensions sample_task ≠ [] ∧
  (GfxProcessor.process (rendering_provider None) sample_task sample_world).1
    = Done (mkGfxTaskResult (render "/photo.jpg" <$> Dimensions sample_task) SUCCESS).
Proof.
  assert (Dimensions sample_task ≠ []) as H1 by done.
  split; [exact H1|].
  apply (process_pointwise_provider (rendering_provider None) sample_task sample_world
           render H1).
  intros ps path dimensions. reflexivity.
Defined.

Lemma process_calls_provider_widest_first_witness :
  Dimensions sample_task ≠ [] ∧
  ∃ first rest,
    trace (GfxProcessor.process (rendering_provider None) sample_task sample_world).2
      = [EvGenerateImages "/photo.jpg" (first :: rest)] ∧
    (w (mkGfxDimension 100 100) ≤ w first)%Z.
Proof.
  assert (Dimensions sample_task ≠ []) as H1 by done.
  split; [exact H1|].
  destruct (process_calls_provider_widest_first (rendering_provider None)
              sample_task sample_world H1) as (first & rest & Htrace & _ & _ & Hmax).
  exists first, rest. split; [exact Htrace|].
  apply Hmax. unfold sample_task. simpl. rewrite !elem_of_cons. auto.
Defined.


Lemma process_short_provider_fills_widest_witness :
  Dimensions sample_task ≠ [] ∧
  ∃ out,
    (GfxProcessor.process (fixed_provider ["a"]) sample_task (mkWorld tt [])).1
      = Done (mkGfxTaskResult out SUCCESS).
Proof.
  assert (Dimensions sample_task ≠ []) as H1 by done.
  split; [exact H1|].
  destruct (process_short_provider_fills_widest (fixed_provider ["a"])
              sample_task (mkWorld tt []) H1) as (out & Hrun & _).
  { simpl. lia. }
  exists out. exact Hrun.
Defined.

Lemma sorted_dimensions_unique_witness :
  @sorted_dimensions merge_StdSort sample_task
    = @sorted_dimensions reverse_merge_StdSort sample_task.
Proof.
  apply (sorted_dimensions_unique merge_StdSort reverse_merge_StdSort sample_task).
  intros d1 d2 H1 H2. unfold sample_task in *. simpl in *.
  rewrite !elem_of_cons, elem_of_nil in H1, H2.
  destruct H1 as [-> | [-> | [-> | []]]], H2 as [-> | [-> | [-> | []]]];
    simpl; intros; (done || lia).
Defined.

Lemma supportedformats_empty_iff_null_witness :
  IGfxProvider.supportedformats (rendering_provider (Some "")) 0 = Some "" ∧
  GfxProcessor.supportedformats (rendering_provider (Some "")) 0
    = ".tif.exr.pic.pct.tiff.pict" ∧
  GfxProcessor.supportedformats (rendering_provider None) 0 = "".
Proof.
  split; [reflexivity|]. split.
  - apply (proj2 (supportedformats_empty_iff_null (rendering_provider (Some "")) 0)).
    reflexivity.
  - apply (proj1 (supportedformats_empty_iff_null (rendering_provider None) 0)).
    reflexivity.
Defined.

Lemma run_answers_in_kind_witness :
  RequestProcessor.run sample_processor (mkJob shutdown_endpoint CommandShutDown)
    sample_world
  = (Done tt, mkWorld 0 [EvWriteCommand 8 CommandShutDownResponse 5000%Z]) ∧
  last [EvWriteCommand 8 CommandShutDownResponse 5000%Z]
  = Some (EvWriteCommand 8 CommandShutDownResponse 5000%Z).
Proof.
  assert (RequestProcessor.run sample_processor (mkJob shutdown_endpoint CommandShutDown)
            sample_world
          = (Done tt, mkWorld 0 [EvWriteCommand 8 CommandShutDownResponse 5000%Z]))
    as H1 by reflexivity.
  split; [exact H1|].
  exact (run_answers_in_kind sample_processor _ _ _ H1).
Defined.

Lemma processGfx_text_follows_code_witness :
  IGfxProcessor.process sample_processor sample_task sample_world
    = (Done sample_result, sample_world_after) ∧
  ∃ response,
    ErrorCode response = status_value (ProcessStatus sample_result) ∧
    (ErrorText response = "OK" ↔ ErrorCode response = 0%Z).
Proof.
  assert (IGfxProcessor.process sample_processor sample_task sample_world
          = (Done sample_result, sample_world_after)) as H1 by reflexivity.
  split; [exact H1|].
  destruct (processGfx_text_follows_code sample_processor gfx_endpoint
              sample_task sample_world sample_result sample_world_after H1)
    as (response & _ & Hcode & Htext & _).
  exists response. split; [exact Hcode|exact Htext].
Defined.

Lemma newgfx_request_served_witness :
  incoming gfx_endpoint RequestProcessor.READ_TIMEOUT = Decoded (CommandNewGfx sample_task) ∧
  Dimensions sample_task ≠ [] ∧
  ∃ job wd1 wd2,
    RequestProcessor.process gfx_endpoint sample_world = (Done false, wd1) ∧
    RequestProcessor.run (GfxProcessor.as_IGfxProcessor (rendering_provider None))
      job wd1 = (Done tt, wd2) ∧
    last (trace wd2) =
      Some (EvWriteCommand 7
              (NewGfxResponse
                 (mkCommandNewGfxResponse 0 "OK"
                    ["/photo.jpg@50x50"; "/photo.jpg@100x100"; "/photo.jpg@75x75"]))
              5000%Z).
Proof.
  assert (incoming gfx_endpoint RequestProcessor.READ_TIMEOUT
          = Decoded (CommandNewGfx sample_task)) as H1 by reflexivity.
  assert (Dimensions sample_task ≠ []) as H2 by done.
  split; [exact H1|]. split; [exact H2|].
  destruct (newgfx_request_served (rendering_provider None) gfx_endpoint sample_task
              sample_world render H1 H2) as (job & wd1 & wd2 & Hp & _ & Hrun & Htrace).
  { intros ps path dimensions. reflexivity. }
  exists job, wd1, wd2. split; [exact Hp|]. split; [exact Hrun|].
  rewrite Htrace.
  change [EvGenerateImages (Path sample_task) (sorted_dimensions sample_task);
          EvWriteCommand (endpoint_id gfx_endpoint)
            (NewGfxResponse
               (mkCommandNewGfxResponse 0 "OK"
                  (render (Path sample_task) <$> Dimensions sample_task)))
            RequestProcessor.WRITE_TIMEOUT]
    with ([EvGenerateImages (Path sample_task) (sorted_dimensions sample_task)] ++
          [EvWriteCommand 7
             (NewGfxResponse
                (mkCommandNewGfxResponse 0 "OK"
                   ["/photo.jpg@50x50"; "/photo.jpg@100x100"; "/photo.jpg@75x75"]))
             5000%Z]).
  by rewrite !app_assoc, last_snoc.
Defined.

Lemma newgfx_request_without_dimensions_witness :
  let endpoint := mkEndpoint 3 (λ _, Decoded (CommandNewGfx (mkGfxTask "/photo.jpg" []))) in
  ∃ job wd1 wd2,
    RequestProcessor.process endpoint sample_world = (Done false, wd1) ∧
    RequestProcessor.run (GfxProcessor.as_IGfxProcessor (rendering_provider None))
      job wd1 = (Done tt, wd2) ∧
    provider_state wd2 = 0.
Proof.
  intros endpoint.
  destruct (newgfx_request_without_dimensions (rendering_provider None) endpoint
              (mkGfxTask "/photo.jpg" []) sample_world eq_refl eq_refl)
    as (job & wd1 & wd2 & Hp & _ & Hrun & _ & Hps).
  exists job, wd1, wd2. split; [exact Hp|]. split; [exact Hrun|exact Hps].
Defined.

(** ** Nothing lost, nothing stopped *)

Lemma default_lookup_seq {A} (a : A) (l : list A) :
  (λ j, default a (l !! j)) <$> seq 0 (length l) = l.
Proof.
  apply list_eq. intros i. rewrite list_lookup_fmap.
  destruct (decide (i < length l)) as [Hi|Hi].
  - rewrite lookup_seq_lt by done. simpl.
    destruct (lookup_lt_is_Some_2 l i Hi) as [x Hx]. by rewrite Hx.
  - rewrite lookup_seq_ge by lia. simpl. symmetry. apply lookup_ge_None. lia.
Qed.

(** X15.  With a provider that returns one image per dimension, the images
    of the result are a rearrangement of the images the provider returned:
    none is dropped and none is delivered twice. *)
Theorem process_result_rearranges_images {PS} `{!StdSort}
    (mGfxProvider : IGfxProvider.t PS) task wd :
  Dimensions task ≠ [] →
  one_image_per_dimension mGfxProvider →
  ∃ out,
    (GfxProcessor.process mGfxProvider task wd).1
      = Done (mkGfxTaskResult out SUCCESS) ∧
    out ≡ₚ (IGfxProvider.generateImages mGfxProvider
              (provider_state wd) (Path task) (sorted_dimensions task)).1.
Proof.
  intros Hd Hone.
  set (images := (IGfxProvider.generateImages mGfxProvider
                    (provider_state wd) (Path task) (sorted_dimensions task)).1).
  assert (length images = length (Dimensions task)) as Hlen.
  { subst images. rewrite Hone. unfold sorted_dimensions.
    by rewrite length_fmap, sorted_indices_length. }
  destruct (process_nonempty_done mGfxProvider task wd Hd) as (out & Hrun & Hl & Hset & _).
  { fold images. lia. }
  fold images in Hset.
  exists out. rewrite Hrun. split; [done|].
  assert (images = (λ j, default "" (out !! j))
                     <$> GfxProcessor.sorted_indices (Dimensions task)) as ->.
  { apply list_eq. intros k. rewrite list_lookup_fmap.
    destruct (decide (k < length images)) as [Hk|Hk].
    - destruct (lookup_lt_is_Some_2 (GfxProcessor.sorted_indices (Dimensions task)) k)
        as [j Hj]; [rewrite sorted_indices_length; lia|].
      rewrite Hj. simpl. rewrite (Hset k j Hk Hj).
      by destruct (lookup_lt_is_Some_2 images k Hk) as [image ->].
    - rewrite (lookup_ge_None_2 images) by lia.
      rewrite (lookup_ge_None_2 (GfxProcessor.sorted_indices (Dimensions task)));
        [done|rewrite sorted_indices_length; lia]. }
  rewrite sorted_indices_Permutation, <-Hl. by rewrite default_lookup_seq.
Qed.

(** X16.  Accepting a shutdown stops nothing: once a shutdown command has
    been accepted and its job has run, a hello command arriving on another
    connection is queued and answered as ever.  The whole exchange makes four
    calls, two pushes and two writes, and leaves the provider alone. *)
Theorem shutdown_does_not_stop_service {PS} (mGfxProcessor : IGfxProcessor.t PS)
    (first second : IEndpoint) (wd : World PS) :
  incoming first RequestProcessor.READ_TIMEOUT = Decoded CommandShutDown →
  incoming second RequestProcessor.READ_TIMEOUT = Decoded CommandHello →
  ∃ wd1 wd2 wd3 wd4,
    RequestProcessor.process first wd = (Done true, wd1) ∧
    RequestProcessor.run mGfxProcessor (mkJob first CommandShutDown) wd1 = (Done tt, wd2) ∧
    RequestProcessor.process second wd2 = (Done false, wd3) ∧
    RequestProcessor.run mGfxProcessor (mkJob second CommandHello) wd3 = (Done tt, wd4) ∧
    trace wd4 =
      trace wd ++
      [EvPoolPush (mkJob first CommandShutDown);
       EvWriteCommand (endpoint_id first) CommandShutDownResponse
         RequestProcessor.WRITE_TIMEOUT;
       EvPoolPush (mkJob second CommandHello);
       EvWriteCommand (endpoint_id second) CommandHelloResponse
         RequestProcessor.WRITE_TIMEOUT] ∧
    provider_state wd4 = provider_state wd.
Proof.
  intros H1 H2. eexists _, _, _, _.
  split; [|split; [|split; [|split; [|split]]]].
  - unfold RequestProcessor.process, readCommand. rewrite H1. reflexivity.
  - reflexivity.
  - unfold RequestProcessor.process, readCommand. rewrite H2. reflexivity.
  - reflexivity.
  - simpl. by rewrite <-!app_assoc.
  - reflexivity.
Qed.

Lemma process_result_rearranges_images_witness :
  Dimensions sample_task ≠ [] ∧
  one_image_per_dimension (rendering_provider None) ∧
  ∃ out,
    (GfxProcessor.process (rendering_provider None) sample_task sample_world).1
      = Done (mkGfxTaskResult out SUCCESS) ∧
    out ≡ₚ ["/photo.jpg@100x100"; "/photo.jpg@75x75"; "/photo.jpg@50x50"].
Proof.
  assert (Dimensions sample_task ≠ []) as H1 by done.
  pose proof (rendering_provider_one_image_per_dimension None) as H2.
  split; [exact H1|]. split; [exact H2|].
  exact (process_result_rearranges_images (rendering_provider None)
           sample_task sample_world H1 H2).
Defined.

Lemma shutdown_does_not_stop_service_witness :
  ∃ wd1 wd2 wd3 wd4,
    RequestProcessor.process shutdown_endpoint sample_world = (Done true, wd1) ∧
    RequestProcessor.run sample_processor (mkJob shutdown_endpoint CommandShutDown) wd1
      = (Done tt, wd2) ∧
    RequestProcessor.process (mkEndpoint 4 (λ _, Decoded CommandHello)) wd2
      = (Done false, wd3) ∧
    RequestProcessor.run sample_processor
      (mkJob (mkEndpoint 4 (λ _, Decoded CommandHello)) CommandHello) wd3
      = (Done tt, wd4) ∧
    provider_state wd4 = 0.
Proof.
  destruct (shutdown_does_not_stop_service sample_processor shutdown_endpoint
              (mkEndpoint 4 (λ _, Decoded CommandHello)) sample_world eq_refl eq_refl)
    as (wd1 & wd2 & wd3 & wd4 & Ha & Hb & Hc & Hd & _ & He).
  exists wd1, wd2, wd3, wd4. repeat split; assumption.
Defined.
